(** * Verification of the e-mail repository (server/src/repositories/email.repository.ts)

    The development embeds the [EmailRepository] class shallowly:
    - the pure part of [createTransport] (port / TLS / auth inference) as a
      function on records;
    - [verifySmtp] and [sendEmail] as programs in a small trace-and-exception
      monad, in which every call to a collaborator (logger, nodemailer
      transport) is recorded together with its outcome;
    - [renderEmail] over the absent template components, taken as parameters. *)

From Stdlib Require Import String Ascii ZArith List Bool Lia DecimalString.
From ExtLib Require Import Structures.Monad Structures.MonadExc.
Import ListNotations.
Import MonadNotation.
Local Open Scope string_scope.
Local Open Scope monad_scope.

Set Implicit Arguments.

(** ** JavaScript primitives used by the source *)

Module Js.

(** Truthiness of a [string | undefined]: only a non-empty string is truthy. *)
Definition truthy_str (s : option string) : bool :=
  match s with
  | Some (String _ _) => true
  | Some EmptyString => false
  | None => false
  end.

(** Truthiness of a [boolean | undefined]. *)
Definition truthy_bool (b : option bool) : bool :=
  match b with
  | Some true => true
  | _ => false
  end.

(** [a ?? b] *)
Definition nullish {A} (a : option A) (b : A) : A :=
  match a with
  | Some x => x
  | None => b
  end.

(** [a || b] on [string | undefined] operands. *)
Definition or_str (a b : option string) : option string :=
  if truthy_str a then a else b.

(** ToString of an integral number below 10^21 in magnitude, as ports and
    errnos are (from there on JavaScript prints an exponent). *)
Definition num_to_string (z : Z) : string :=
  NilZero.string_of_int (Z.to_int z).

Definition bool_to_string (b : bool) : string :=
  if b then "true" else "false".

(** Template-literal interpolation [`${x}`] of an optional value. *)
Definition interp {A} (show : A -> string) (x : option A) : string :=
  match x with
  | Some v => show v
  | None => "undefined"
  end.

(** [Array.prototype.join] on an array of strings. *)
Fixpoint join (sep : string) (l : list string) : string :=
  match l with
  | [] => EmptyString
  | [x] => x
  | x :: rest => x ++ sep ++ join sep rest
  end.

Definition dquote : string := String (ascii_of_nat 34) EmptyString.

Definition hex_digit (n : nat) : ascii :=
  match n with
  | 0 => "0" | 1 => "1" | 2 => "2" | 3 => "3" | 4 => "4"
  | 5 => "5" | 6 => "6" | 7 => "7" | 8 => "8" | 9 => "9"
  | 10 => "a" | 11 => "b" | 12 => "c" | 13 => "d" | 14 => "e"
  | _ => "f"
  end%char.

(** QuoteJSONString, one code unit: quote, backslash and the control
    characters below U+0020 are escaped, everything else is copied. *)
Definition json_escape_char (c : ascii) : string :=
  let n := nat_of_ascii c in
  if Nat.eqb n 34 then "\" ++ dquote
  else if Nat.eqb n 92 then "\\"
  else if Nat.eqb n 8 then "\b"
  else if Nat.eqb n 9 then "\t"
  else if Nat.eqb n 10 then "\n"
  else if Nat.eqb n 12 then "\f"
  else if Nat.eqb n 13 then "\r"
  else if Nat.ltb n 32 then
    "\u00" ++ String (hex_digit (n / 16)) (String (hex_digit (n mod 16)) EmptyString)
  else String c EmptyString.

Fixpoint json_escape (s : string) : string :=
  match s with
  | EmptyString => EmptyString
  | String c rest => json_escape_char c ++ json_escape rest
  end.

Definition json_string (s : string) : string :=
  dquote ++ json_escape s ++ dquote.

(** The values a property of a flat object literal takes in this file. *)
Inductive value :=
| VUndefined
| VString (s : string)
| VNumber (z : Z)
| VBool (b : bool).

Definition of_opt {A} (inj : A -> value) (x : option A) : value :=
  match x with
  | Some v => inj v
  | None => VUndefined
  end.

(** ToBoolean *)
Definition truthy (v : value) : bool :=
  match v with
  | VUndefined => false
  | VString EmptyString => false
  | VString (String _ _) => true
  | VNumber z => negb (Z.eqb z 0)
  | VBool b => b
  end.

(** ToString *)
Definition to_string (v : value) : string :=
  match v with
  | VUndefined => "undefined"
  | VString s => s
  | VNumber z => num_to_string z
  | VBool b => bool_to_string b
  end.

(** [a && b] *)
Definition and_then (a b : value) : value :=
  if truthy a then b else a.

(** SerializeJSONProperty: [undefined] yields no text at all. *)
Definition json_value (v : value) : option string :=
  match v with
  | VUndefined => None
  | VString s => Some (json_string s)
  | VNumber z => Some (num_to_string z)
  | VBool b => Some (bool_to_string b)
  end.

(** SerializeJSONObject: properties in insertion order, those whose value
    is [undefined] are skipped. *)
Fixpoint json_members (props : list (string * value)) : list string :=
  match props with
  | [] => []
  | (k, v) :: rest =>
      match json_value v with
      | Some txt => (json_string k ++ ":" ++ txt) :: json_members rest
      | None => json_members rest
      end
  end.

(** [JSON.stringify] of a flat object. *)
Definition JSON_stringify (props : list (string * value)) : string :=
  "{" ++ join "," (json_members props) ++ "}".

End Js.

(** ** Data model *)

(** [SmtpOptions]: every field but [host] is optional. *)
Record SmtpOptions := mkSmtpOptions {
  smtp_host : string;
  smtp_port : option Z;
  smtp_secure : option bool;
  smtp_username : option string;
  smtp_password : option string;
  smtp_ignoreCert : option bool
}.

(** The [auth] object handed to nodemailer. *)
Record Auth := mkAuth {
  auth_user : option string;
  auth_pass : option string
}.

(** The object literal that the private [createTransport] method builds
    (lines 187-204). *)
Record TransportOptions := mkTransportOptions {
  host : string;
  port : Z;
  secure : bool;
  requireTLS : bool;
  tls_rejectUnauthorized : bool;
  auth : option Auth;
  connectionTimeout : Z;
  greetingTimeout : Z;
  socketTimeout : Z;
  dnsTimeout : Z
}.

(** [EmailImageAttachment] (declared in src/types): the three properties the
    source reads. *)
Record EmailImageAttachment := mkImage {
  img_filename : string;
  img_path : string;
  img_cid : string
}.

(** An entry of the [attachments] array built by [sendEmail]. *)
Record Attachment := mkAttachment {
  filename : string;
  path : string;
  cid : string
}.

Record SendEmailOptions := mkSendEmailOptions {
  se_from : string;
  se_to : string;
  se_replyTo : option string;
  se_subject : string;
  se_html : string;
  se_text : string;
  se_imageAttachments : option (list EmailImageAttachment);
  se_smtp : SmtpOptions
}.

(** The message accepted by the transport's [sendMail]: the spec's
    Envelope, [{from, to, replyTo?, subject, html, text, attachments}].  A
    property that the object literal of line 158 leaves out, or sets to
    [undefined], is [None] here. *)
Record MailOptions := mkMailOptions {
  mail_to : string;
  mail_from : string;
  mail_replyTo : option string;
  mail_subject : string;
  mail_html : string;
  mail_text : string;
  mail_attachments : option (list Attachment)
}.

(** ** The transport configurator: the pure part of [createTransport] *)

Definition resolve_port (options : SmtpOptions) : Z :=
  Js.nullish (smtp_port options)
             (if Js.truthy_bool (smtp_secure options) then 465 else 587)%Z.

Definition resolve_secure (options : SmtpOptions) : bool :=
  Js.nullish (smtp_secure options) (Z.eqb (resolve_port options) 465).

Definition resolve_auth (options : SmtpOptions) : option Auth :=
  if Js.truthy_str (Js.or_str (smtp_username options) (smtp_password options))
  then Some {| auth_user := smtp_username options;
               auth_pass := smtp_password options |}
  else None.

Definition transportOptions (options : SmtpOptions) : TransportOptions :=
  let port := resolve_port options in
  let secure := resolve_secure options in
  {| host := smtp_host options;
     port := port;
     secure := secure;
     requireTLS := negb secure && Z.eqb port 587;
     tls_rejectUnauthorized := negb (Js.truthy_bool (smtp_ignoreCert options));
     auth := resolve_auth options;
     connectionTimeout := 10000;
     greetingTimeout := 10000;
     socketTimeout := 10000;
     dnsTimeout := 10000 |}.

(** ** Effects: calls to collaborators, their outcomes, exceptions *)

(** An [Error] object, with the two extra properties of
    [NodeJS.ErrnoException] that [verifySmtp] inspects. *)
Record JsError := mkJsError {
  message : string;
  code : option string;
  errno : option Z;
  stack : option string
}.

(** A thrown value: an instance of [Error], or anything else, of which only
    [String(value)] is observed. *)
Inductive Thrown :=
| ThrownError (e : JsError)
| ThrownOther (repr : string).

(** A transport session is named by the position of the call that made it. *)
Definition Transport := nat.

(** The promise returned by [sendMail], named by the position of that call. *)
Record Promise := mkPromise { promise_of_call : nat }.

Inductive Call :=
| LoggerLog (msg : string)
| LoggerDebug (msg : string)
| LoggerError (msg : string) (trace : option string)
| NodemailerCreateTransport (t : Transport) (cfg : TransportOptions)
| TransportVerify (t : Transport)
| TransportSendMail (t : Transport) (m : MailOptions)
| TransportClose (t : Transport).

Inductive Kind := KLogger | KCreate | KVerify | KSendMail | KClose.

Definition kind_of (c : Call) : Kind :=
  match c with
  | LoggerLog _ | LoggerDebug _ | LoggerError _ _ => KLogger
  | NodemailerCreateTransport _ _ => KCreate
  | TransportVerify _ => KVerify
  | TransportSendMail _ _ => KSendMail
  | TransportClose _ => KClose
  end.

(** The environment of a run: for each kind of collaborator call and each
    position in the run, whether that call throws and what; and the [stack]
    that the runtime gives to an [Error] constructed by the program. *)
Record Env := mkEnv {
  fault : Kind -> nat -> option Thrown;
  new_error_stack : string -> option string
}.

(** One entry per collaborator call: the call and how it ended. *)
Definition Entry := (Call * option Thrown)%type.

Inductive Outcome (A : Type) :=
| Ret (a : A)
| Throw (e : Thrown).
Arguments Throw {A} e.

(** A program, started when [n] collaborator calls have been made, ends by
    returning or throwing, and has made the listed calls, oldest first. *)
Definition Eff (A : Type) := nat -> Outcome A * list Entry.

#[global] Instance Monad_Eff : Monad Eff := {
  ret := fun A (a : A) _ => (Ret a, []);
  bind := fun A B (m : Eff A) (k : A -> Eff B) n =>
    match m n with
    | (Ret a, evs) =>
        match k a (n + length evs)%nat with
        | (r, evs') => (r, (evs ++ evs')%list)
        end
    | (Throw e, evs) => (Throw e, evs)
    end
}.

#[global] Instance MonadExc_Eff : MonadExc Thrown Eff := {
  raise := fun A (e : Thrown) _ => (Throw e, []);
  catch := fun A (body : Eff A) (handler : Thrown -> Eff A) n =>
    match body n with
    | (Ret a, evs) => (Ret a, evs)
    | (Throw e, evs) =>
        match handler e (n + length evs)%nat with
        | (r, evs') => (r, (evs ++ evs')%list)
        end
    end
}.

(** [try { body } finally { fin }]: [fin] runs on every exit of [body]; a
    normal end of [fin] keeps the completion of [body], a throw replaces it. *)
Definition finally {A} (body : Eff A) (fin : Eff unit) : Eff A :=
  fun n =>
    match body n with
    | (r, evs) =>
        match fin (n + length evs)%nat with
        | (Ret _, evs') => (r, (evs ++ evs')%list)
        | (Throw e, evs') => (Throw e, (evs ++ evs')%list)
        end
    end.

(** The position of the next collaborator call. *)
Definition position : Eff nat := fun n => (Ret n, []).

Section Collaborators.

Variable env : Env.

(** Perform a collaborator call: the environment decides its outcome, and
    the call is recorded with it. *)
Definition call (c : Call) : Eff unit :=
  fun n =>
    let r := fault env (kind_of c) n in
    (match r with None => Ret tt | Some e => Throw e end, [(c, r)]).

Definition logger_log (msg : string) : Eff unit := call (LoggerLog msg).
Definition logger_debug (msg : string) : Eff unit := call (LoggerDebug msg).
Definition logger_error (msg : string) (trace : option string) : Eff unit :=
  call (LoggerError msg trace).

(** nodemailer's [createTransport]. *)
Definition nodemailer_createTransport (cfg : TransportOptions) : Eff Transport :=
  t <- position ;;
  call (NodemailerCreateTransport t cfg) ;;
  ret t.

(** [await transport.verify()] *)
Definition transport_verify (t : Transport) : Eff unit := call (TransportVerify t).

(** [transport.sendMail(m)]: returns the promise of the delivery, or throws. *)
Definition transport_sendMail (t : Transport) (m : MailOptions) : Eff Promise :=
  p <- position ;;
  call (TransportSendMail t m) ;;
  ret (mkPromise p).

Definition transport_close (t : Transport) : Eff unit := call (TransportClose t).

(** *** The private method [createTransport] (lines 184-205) *)
Definition createTransport (options : SmtpOptions) : Eff Transport :=
  nodemailer_createTransport (transportOptions options).

(** *** [verifySmtp] (lines 107-138) *)

Definition safeOpts (options : SmtpOptions) : list (string * Js.value) :=
  [ ("host", Js.VString (smtp_host options));
    ("port", Js.of_opt Js.VNumber (smtp_port options));
    ("secure", Js.of_opt Js.VBool (smtp_secure options));
    ("username", Js.VString (Js.nullish (smtp_username options) "(none)"));
    ("password", Js.VString (if Js.truthy_str (smtp_password options)
                             then "********" else "(none)"));
    ("ignoreCert", Js.of_opt Js.VBool (smtp_ignoreCert options)) ].

(** [`${options.host}:${options.port}`] *)
Definition host_port (options : SmtpOptions) : string :=
  smtp_host options ++ ":" ++ Js.interp Js.num_to_string (smtp_port options).

(** [error instanceof Error ? error : new Error(String(error))] *)
Definition as_error (error : Thrown) : JsError :=
  match error with
  | ThrownError e => e
  | ThrownOther repr =>
      {| message := repr; code := None; errno := None;
         stack := new_error_stack env repr |}
  end.

(** The array of lines 126-130, before [.filter(Boolean)]. *)
Definition detail_parts (err : JsError) : list Js.value :=
  [ Js.VString (message err);
    Js.and_then (Js.of_opt Js.VString (code err))
                (Js.VString ("code=" ++ Js.interp (fun s => s) (code err)));
    Js.and_then (Js.VBool (match errno err with Some _ => true | None => false end))
                (Js.VString ("errno=" ++ Js.interp Js.num_to_string (errno err))) ].

Definition details (err : JsError) : string :=
  Js.join ", " (map Js.to_string (filter Js.truthy (detail_parts err))).

(** The four log lines of [verifySmtp] (lines 116, 117, 122, 133). *)
Definition msg_verifying (options : SmtpOptions) : string :=
  "Verifying SMTP connection to " ++ host_port options
    ++ " (secure=" ++ Js.interp Js.bool_to_string (smtp_secure options) ++ ")".

Definition msg_options (options : SmtpOptions) : string :=
  "SMTP options: " ++ Js.JSON_stringify (safeOpts options).

Definition msg_successful (options : SmtpOptions) : string :=
  "SMTP verification successful for " ++ host_port options.

Definition msg_failed (options : SmtpOptions) (err : JsError) : string :=
  "SMTP verification failed for " ++ host_port options ++ ": " ++ details err.

Definition verifySmtp (options : SmtpOptions) : Eff bool :=
  logger_log (msg_verifying options) ;;
  logger_debug (msg_options options) ;;
  transport <- createTransport options ;;
  finally
    (catch
       (transport_verify transport ;;
        logger_log (msg_successful options) ;;
        ret true)
       (fun error =>
          let err := as_error error in
          logger_error (msg_failed options err) (stack err) ;;
          raise error))
    (transport_close transport).

(** *** [sendEmail] (lines 147-162) *)

Definition toAttachment (attachment : EmailImageAttachment) : Attachment :=
  {| filename := img_filename attachment;
     path := img_path attachment;
     cid := img_cid attachment |}.

(** [imageAttachments?.map(...)] *)
Definition attachments_of (imageAttachments : option (list EmailImageAttachment))
  : option (list Attachment) :=
  match imageAttachments with
  | Some l => Some (map toAttachment l)
  | None => None
  end.

(** The log line of [sendEmail] (line 148). *)
Definition msg_sending (o : SendEmailOptions) : string :=
  "Sending email to " ++ se_to o ++ " with subject: " ++ se_subject o.

Definition sendEmail (o : SendEmailOptions) : Eff Promise :=
  logger_debug (msg_sending o) ;;
  transport <- createTransport (se_smtp o) ;;
  let attachments := attachments_of (se_imageAttachments o) in
  finally
    (transport_sendMail transport
       {| mail_to := se_to o;
          mail_from := se_from o;
          mail_replyTo := None;
          mail_subject := se_subject o;
          mail_html := se_html o;
          mail_text := se_text o;
          mail_attachments := attachments |})
    (transport_close transport).

End Collaborators.

Arguments msg_verifying : simpl never.
Arguments msg_options : simpl never.
Arguments msg_successful : simpl never.
Arguments msg_failed : simpl never.
Arguments msg_sending : simpl never.
Arguments transportOptions : simpl never.

(** ** [renderEmail] (lines 140-182) *)

Record TestEmailProps := mkTestEmailProps {
  test_baseUrl : string;
  test_customTemplate : option string;
  test_displayName : string
}.

Record WelcomeEmailProps := mkWelcomeEmailProps {
  welcome_baseUrl : string;
  welcome_customTemplate : option string;
  welcome_displayName : string;
  welcome_username : string;
  welcome_password : option string
}.

Record AlbumInviteEmailProps := mkAlbumInviteEmailProps {
  invite_baseUrl : string;
  invite_customTemplate : option string;
  invite_albumName : string;
  invite_albumId : string;
  invite_senderName : string;
  invite_recipientName : string;
  invite_cid : option string
}.

Record AlbumUpdateEmailProps := mkAlbumUpdateEmailProps {
  update_baseUrl : string;
  update_customTemplate : option string;
  update_albumName : string;
  update_albumId : string;
  update_recipientName : string;
  update_cid : option string
}.

(** [EmailRenderRequest]: the tag [template] selects the type of [data];
    there is no variant for [EmailTemplate.RESET_PASSWORD]. *)
Inductive EmailRenderRequest :=
| TEST_EMAIL (data : TestEmailProps) (customTemplate : string)
| WELCOME (data : WelcomeEmailProps) (customTemplate : string)
| ALBUM_INVITE (data : AlbumInviteEmailProps) (customTemplate : string)
| ALBUM_UPDATE (data : AlbumUpdateEmailProps) (customTemplate : string).

(** The options object given to the rendering function. *)
Record RenderOptions := mkRenderOptions {
  pretty : option bool;
  plainText : option bool
}.

Record RenderedEmail := mkRenderedEmail {
  html : string;
  text : string
}.

(** Modelled from the spec: the template components [TestEmail],
    [WelcomeEmail], [AlbumInviteEmail], [AlbumUpdateEmail] (src/emails/) and
    the rendering function of the react-email package are not among the
    sources.  The spec treats each template as a pure function from its typed
    props to a renderable document, and rendering as a pure function of the
    document; [React.createElement(C, props)] is the document [C props]. *)
Record Templates := mkTemplates {
  Document : Type;
  TestEmail : TestEmailProps -> Document;
  WelcomeEmail : WelcomeEmailProps -> Document;
  AlbumInviteEmail : AlbumInviteEmailProps -> Document;
  AlbumUpdateEmail : AlbumUpdateEmailProps -> Document;
  react_email_render : Document -> RenderOptions -> string
}.

(** [needle] occurs in [hay]. *)
Definition occurs_in (needle hay : string) : Prop :=
  exists before after, hay = before ++ needle ++ after.

Section Rendering.

Variable T : Templates.

(** The private method [render]: [{ ...data, customTemplate }] copies
    [data] and then sets [customTemplate] from the request. *)
Definition render (request : EmailRenderRequest) : Document T :=
  match request with
  | TEST_EMAIL data customTemplate =>
      TestEmail T
        {| test_baseUrl := test_baseUrl data;
           test_customTemplate := Some customTemplate;
           test_displayName := test_displayName data |}
  | WELCOME data customTemplate =>
      WelcomeEmail T
        {| welcome_baseUrl := welcome_baseUrl data;
           welcome_customTemplate := Some customTemplate;
           welcome_displayName := welcome_displayName data;
           welcome_username := welcome_username data;
           welcome_password := welcome_password data |}
  | ALBUM_INVITE data customTemplate =>
      AlbumInviteEmail T
        {| invite_baseUrl := invite_baseUrl data;
           invite_customTemplate := Some customTemplate;
           invite_albumName := invite_albumName data;
           invite_albumId := invite_albumId data;
           invite_senderName := invite_senderName data;
           invite_recipientName := invite_recipientName data;
           invite_cid := invite_cid data |}
  | ALBUM_UPDATE data customTemplate =>
      AlbumUpdateEmail T
        {| update_baseUrl := update_baseUrl data;
           update_customTemplate := Some customTemplate;
           update_albumName := update_albumName data;
           update_albumId := update_albumId data;
           update_recipientName := update_recipientName data;
           update_cid := update_cid data |}
  end.

Definition renderEmail (request : EmailRenderRequest) : RenderedEmail :=
  let component := render request in
  let html := react_email_render T component {| pretty := Some false; plainText := None |} in
  let text := react_email_render T component {| pretty := None; plainText := Some true |} in
  {| html := html; text := text |}.

End Rendering.

(** ** Observations on traces *)

(** The calls a program makes, and how it ends, when started at [n]. *)
Definition events {A} (m : Eff A) (n : nat) : list Entry := snd (m n).

Definition outcome {A} (m : Eff A) (n : nat) : Outcome A := fst (m n).

(** Sessions opened: the transports that [createTransport] returned. *)
Fixpoint opened (evs : list Entry) : list Transport :=
  match evs with
  | [] => []
  | (NodemailerCreateTransport t _, None) :: rest => t :: opened rest
  | _ :: rest => opened rest
  end.

(** Sessions closed: one item per call of [close]. *)
Fixpoint closed (evs : list Entry) : list Transport :=
  match evs with
  | [] => []
  | (TransportClose t, _) :: rest => t :: closed rest
  | _ :: rest => closed rest
  end.

(** No collaborator is called on a session after it was closed: the [close] of
    every opened session is the last event. *)
Definition closes_last (evs : list Entry) : bool :=
  match opened evs with
  | [] => true
  | t :: _ =>
      match last evs (LoggerLog EmptyString, None) with
      | (TransportClose t', _) => Nat.eqb t t'
      | _ => false
      end
  end.

(** What reached the logger, in order. *)
Fixpoint logged (evs : list Entry) : list Call :=
  match evs with
  | [] => []
  | (LoggerLog msg, _) :: rest => LoggerLog msg :: logged rest
  | (LoggerDebug msg, _) :: rest => LoggerDebug msg :: logged rest
  | (LoggerError msg trace, _) :: rest => LoggerError msg trace :: logged rest
  | _ :: rest => logged rest
  end.

(** The calls of [verify], with their outcomes. *)
Fixpoint verified (evs : list Entry) : list (option Thrown) :=
  match evs with
  | [] => []
  | (TransportVerify _, r) :: rest => r :: verified rest
  | _ :: rest => verified rest
  end.

(** The messages handed to [sendMail]. *)
Fixpoint sent (evs : list Entry) : list MailOptions :=
  match evs with
  | [] => []
  | (TransportSendMail _ m, _) :: rest => m :: sent rest
  | _ :: rest => sent rest
  end.


(** ** Inputs that differ in one field, and sample inputs *)

Definition with_password (o : SmtpOptions) (p : option string) : SmtpOptions :=
  {| smtp_host := smtp_host o;
     smtp_port := smtp_port o;
     smtp_secure := smtp_secure o;
     smtp_username := smtp_username o;
     smtp_password := p;
     smtp_ignoreCert := smtp_ignoreCert o |}.

Definition with_replyTo (o : SendEmailOptions) (r : option string) : SendEmailOptions :=
  {| se_from := se_from o;
     se_to := se_to o;
     se_replyTo := r;
     se_subject := se_subject o;
     se_html := se_html o;
     se_text := se_text o;
     se_imageAttachments := se_imageAttachments o;
     se_smtp := se_smtp o |}.

(** A [string | undefined] that holds a non-empty string. *)
Definition non_empty (s : option string) : Prop :=
  exists v, s = Some v /\ v <> EmptyString.

(** The parts of the failure line, as the claim words them: the message,
    then the code and the errno when there is one. *)
Definition failure_parts (err : JsError) : list string :=
  (match message err with
   | EmptyString => []
   | m => [m]
   end
   ++ match code err with
      | Some (String a r) => [("code=" ++ String a r)%string]
      | _ => []
      end
   ++ match errno err with
      | Some z => [("errno=" ++ Js.num_to_string z)%string]
      | None => []
      end)%list.

Definition example_smtp : SmtpOptions :=
  {| smtp_host := "smtp.example.com";
     smtp_port := None;
     smtp_secure := Some true;
     smtp_username := Some "immich";
     smtp_password := Some "hunter2";
     smtp_ignoreCert := None |}.

Definition example_refused : Thrown :=
  ThrownError {| message := "connect ECONNREFUSED 127.0.0.1:465";
                 code := Some "ESOCKET";
                 errno := Some (-111)%Z;
                 stack := Some "Error: connect ECONNREFUSED 127.0.0.1:465" |}.

(** An environment in which only [verify] fails. *)
Definition env_refused : Env :=
  {| fault := fun k _ => match k with KVerify => Some example_refused | _ => None end;
     new_error_stack := fun _ => None |}.

(** ** Further observations and inputs *)

(** The request with [data.customTemplate] replaced. *)
Definition with_data_customTemplate (request : EmailRenderRequest) (c : option string)
  : EmailRenderRequest :=
  match request with
  | TEST_EMAIL data ct =>
      TEST_EMAIL {| test_baseUrl := test_baseUrl data;
                    test_customTemplate := c;
                    test_displayName := test_displayName data |} ct
  | WELCOME data ct =>
      WELCOME {| welcome_baseUrl := welcome_baseUrl data;
                 welcome_customTemplate := c;
                 welcome_displayName := welcome_displayName data;
                 welcome_username := welcome_username data;
                 welcome_password := welcome_password data |} ct
  | ALBUM_INVITE data ct =>
      ALBUM_INVITE {| invite_baseUrl := invite_baseUrl data;
                      invite_customTemplate := c;
                      invite_albumName := invite_albumName data;
                      invite_albumId := invite_albumId data;
                      invite_senderName := invite_senderName data;
                      invite_recipientName := invite_recipientName data;
                      invite_cid := invite_cid data |} ct
  | ALBUM_UPDATE data ct =>
      ALBUM_UPDATE {| update_baseUrl := update_baseUrl data;
                      update_customTemplate := c;
                      update_albumName := update_albumName data;
                      update_albumId := update_albumId data;
                      update_recipientName := update_recipientName data;
                      update_cid := update_cid data |} ct
  end.

(** The options with the resolved port and [secure] written in. *)
Definition with_resolved (o : SmtpOptions) : SmtpOptions :=
  {| smtp_host := smtp_host o;
     smtp_port := Some (port (transportOptions o));
     smtp_secure := Some (secure (transportOptions o));
     smtp_username := smtp_username o;
     smtp_password := smtp_password o;
     smtp_ignoreCert := smtp_ignoreCert o |}.

(** The configurations given to nodemailer's [createTransport]. *)
Fixpoint created (evs : list Entry) : list TransportOptions :=
  match evs with
  | [] => []
  | (NodemailerCreateTransport _ cfg, _) :: rest => cfg :: created rest
  | _ :: rest => created rest
  end.

(** Every call on a transport names a session that [createTransport] has
    returned before; [live] are the sessions returned so far. *)
Fixpoint well_scoped (live : list Transport) (evs : list Entry) : bool :=
  match evs with
  | [] => true
  | (NodemailerCreateTransport t _, None) :: rest => well_scoped (t :: live) rest
  | (TransportVerify t, _) :: rest
  | (TransportSendMail t _, _) :: rest
  | (TransportClose t, _) :: rest =>
      existsb (Nat.eqb t) live && well_scoped live rest
  | _ :: rest => well_scoped live rest
  end.

(** No collaborator call of the run threw. *)
Definition no_fault (evs : list Entry) : bool :=
  forallb (fun e => match snd e with None => true | Some _ => false end) evs.

(** What [close] threw, if it was called and threw. *)
Fixpoint close_fault (evs : list Entry) : option Thrown :=
  match evs with
  | [] => None
  | (TransportClose _, Some e) :: _ => Some e
  | _ :: rest => close_fault rest
  end.

(** The configuration with its [auth] record taken out, and a call seen
    without the [auth] record it may carry. *)
Definition drop_auth (cfg : TransportOptions) : TransportOptions :=
  {| host := host cfg;
     port := port cfg;
     secure := secure cfg;
     requireTLS := requireTLS cfg;
     tls_rejectUnauthorized := tls_rejectUnauthorized cfg;
     auth := None;
     connectionTimeout := connectionTimeout cfg;
     greetingTimeout := greetingTimeout cfg;
     socketTimeout := socketTimeout cfg;
     dnsTimeout := dnsTimeout cfg |}.

Definition without_auth (e : Entry) : Entry :=
  match e with
  | (NodemailerCreateTransport t cfg, r) => (NodemailerCreateTransport t (drop_auth cfg), r)
  | _ => e
  end.

Definition with_smtp (o : SendEmailOptions) (s : SmtpOptions) : SendEmailOptions :=
  {| se_from := se_from o;
     se_to := se_to o;
     se_replyTo := se_replyTo o;
     se_subject := se_subject o;
     se_html := se_html o;
     se_text := se_text o;
     se_imageAttachments := se_imageAttachments o;
     se_smtp := s |}.

Definition example_mail : SendEmailOptions :=
  {| se_from := "immich@example.com";
     se_to := "ann@example.com";
     se_replyTo := None;
     se_subject := "Welcome";
     se_html := "<p>Hello Ann</p>";
     se_text := "Hello Ann";
     se_imageAttachments := None;
     se_smtp := example_smtp |}.

Definition example_disk_full : Thrown := ThrownOther "ENOSPC".

(** An environment in which only [close] fails. *)
Definition env_close_fails : Env :=
  {| fault := fun k _ => match k with KClose => Some example_disk_full | _ => None end;
     new_error_stack := fun _ => None |}.


(** An environment in which only the fifth call fails, when it is a call of
    the logger. *)
Definition env_fifth_log_fails : Env :=
  {| fault := fun k i => match k, i with
                         | KLogger, 4 => Some example_disk_full
                         | _, _ => None
                         end;
     new_error_stack := fun _ => None |}.

(** ** Proof automation for runs *)

(** Expose the calls made by a method. *)
Ltac unfold_eff :=
  unfold events, outcome, verifySmtp, sendEmail, createTransport,
    nodemailer_createTransport, transport_verify, transport_sendMail,
    transport_close, logger_log, logger_debug, logger_error, finally,
    position, call.

(** Case analysis on the outcome of every collaborator call, in the order in
    which the calls are reached. *)
Ltac fault_cases :=
  repeat (cbn; rewrite ?Nat.add_0_r;
          match goal with
          | |- context [match fault ?e ?k ?n with _ => _ end] =>
              destruct (fault e k n) eqn:?
          end);
  cbn.

(** The same, with every position brought to the form [n + k]. *)
Ltac fault_cases_norm :=
  repeat (cbn; rewrite ?Nat.add_0_r, <- ?Nat.add_assoc; cbn [Nat.add];
          match goal with
          | |- context [match fault ?e ?k ?n with _ => _ end] =>
              destruct (fault e k n) eqn:?
          end);
  cbn.

(** ** The transport configurator *)

Lemma truthy_str_non_empty (s : option string) :
  Js.truthy_str s = true <-> non_empty s.
Proof.
  unfold non_empty. split.
  - destruct s as [[|c r]|]; simpl; intros H; try discriminate.
    exists (String c r). split; [reflexivity | discriminate].
  - intros (v & -> & Hv). destruct v; [contradiction | reflexivity].
Qed.

Lemma truthy_or_str (a b : option string) :
  Js.truthy_str (Js.or_str a b) = Js.truthy_str a || Js.truthy_str b.
Proof.
  unfold Js.or_str. destruct (Js.truthy_str a) eqn:Ha; simpl; [exact Ha | reflexivity].
Qed.

(** C1.  The configuration that [createTransport] resolves obeys the three
    defining equations: the port is the given one, else 465 when [secure] is
    [true] and 587 otherwise; implicit TLS is the given [secure], else whether
    the port is 465; STARTTLS is required exactly without implicit TLS on
    port 587.  With port unset and [secure] unset or [false] this gives
    587 / no implicit TLS / STARTTLS; with port unset and [secure] true it
    gives 465 / implicit TLS / no STARTTLS; a given port or [secure] is kept. *)
Theorem C1_transport_security_equations :
  (forall o : SmtpOptions,
      let cfg := transportOptions o in
      port cfg = match smtp_port o with
                 | Some p => p
                 | None => match smtp_secure o with Some true => 465 | _ => 587 end
                 end%Z
      /\ secure cfg = match smtp_secure o with
                      | Some s => s
                      | None => Z.eqb (port cfg) 465
                      end
      /\ requireTLS cfg = negb (secure cfg) && Z.eqb (port cfg) 587)
  /\ (forall h u pw ic,
         let cfg := transportOptions (mkSmtpOptions h None None u pw ic) in
         port cfg = 587%Z /\ secure cfg = false /\ requireTLS cfg = true)
  /\ (forall h u pw ic,
         let cfg := transportOptions (mkSmtpOptions h None (Some false) u pw ic) in
         port cfg = 587%Z /\ secure cfg = false /\ requireTLS cfg = true)
  /\ (forall h u pw ic,
         let cfg := transportOptions (mkSmtpOptions h None (Some true) u pw ic) in
         port cfg = 465%Z /\ secure cfg = true /\ requireTLS cfg = false)
  /\ (forall h p s u pw ic,
         port (transportOptions (mkSmtpOptions h (Some p) s u pw ic)) = p)
  /\ (forall h p s u pw ic,
         secure (transportOptions (mkSmtpOptions h p (Some s) u pw ic)) = s).
Proof.
  repeat split; try reflexivity.
  destruct o as [h p [[|]|] u pw ic]; destruct p; reflexivity.
Qed.

(** C4.  The resolved configuration has an [auth] record if and only if the
    username or the password is a non-empty string, and then the record holds
    the two as given; with both empty or absent there is none. *)
Theorem C4_auth_iff_credentials (o : SmtpOptions) :
  (auth (transportOptions o) <> None
   <-> non_empty (smtp_username o) \/ non_empty (smtp_password o))
  /\ (auth (transportOptions o) = None
      \/ auth (transportOptions o)
         = Some {| auth_user := smtp_username o; auth_pass := smtp_password o |}).
Proof.
  unfold transportOptions, resolve_auth; simpl.
  rewrite truthy_or_str.
  rewrite <- !truthy_str_non_empty.
  destruct (Js.truthy_str (smtp_username o)), (Js.truthy_str (smtp_password o));
    simpl; (split; [split | ]); intros; try discriminate; try congruence; auto.
  destruct H; discriminate.
Qed.

(** C5.  Implicit TLS and required STARTTLS are never both set, whatever of
    port and [secure] is present. *)
Theorem C5_never_both_tls_modes (o : SmtpOptions) :
  secure (transportOptions o) && requireTLS (transportOptions o) = false.
Proof.
  unfold transportOptions; simpl. destruct (resolve_secure o); reflexivity.
Qed.

(** C7.  The four timeouts of the resolved configuration (connection,
    greeting, socket, DNS) are 10000 ms for every input, hence the same for
    any two inputs. *)
Theorem C7_timeouts_fixed (o o' : SmtpOptions) :
  (connectionTimeout (transportOptions o) = 10000
   /\ greetingTimeout (transportOptions o) = 10000
   /\ socketTimeout (transportOptions o) = 10000
   /\ dnsTimeout (transportOptions o) = 10000)%Z
  /\ connectionTimeout (transportOptions o) = connectionTimeout (transportOptions o')
  /\ greetingTimeout (transportOptions o) = greetingTimeout (transportOptions o')
  /\ socketTimeout (transportOptions o) = socketTimeout (transportOptions o')
  /\ dnsTimeout (transportOptions o) = dnsTimeout (transportOptions o').
Proof.
  repeat split.
Qed.

(** ** Running the effectful methods *)

(** What [finally] adds to a body is one run of the finaliser, however the
    body ended; for a [close] that is one call of [close]. *)
Lemma finally_close_events {A} (env : Env) (body : Eff A) (t : Transport) (n : nat) :
  events (finally body (transport_close env t)) n
  = (events body n
     ++ [(TransportClose t, fault env KClose (n + length (events body n)))])%list.
Proof.
  unfold events, finally, transport_close, call.
  destruct (body n) as [r evs]. cbn.
  destruct (fault env KClose (n + length evs)); reflexivity.
Qed.

Lemma pos2 (n : nat) : n + 1 + 1 = n + 2.
Proof. lia. Qed.

(** The configuration handed to nodemailer is the resolved one. *)
Lemma createTransport_events (env : Env) (o : SmtpOptions) (n : nat) :
  events (createTransport env o) n
  = [(NodemailerCreateTransport n (transportOptions o), fault env KCreate n)].
Proof.
  unfold_eff. cbn. rewrite Nat.add_0_r.
  destruct (fault env KCreate n); reflexivity.
Qed.

(** C2.  In every run of [verifySmtp] and of [sendEmail], whatever any
    collaborator call does (return or throw), the sessions closed are exactly
    the sessions opened, there is at most one, its [close] is the last call
    made before the method ends, and a session is opened (hence closed once)
    as soon as the calls before [createTransport] and [createTransport] itself
    return normally. *)
Theorem C2_session_closed_exactly_once (env : Env) (n : nat) :
  (forall o : SmtpOptions,
      let evs := events (verifySmtp env o) n in
      closed evs = opened evs
      /\ length (opened evs) <= 1
      /\ closes_last evs = true
      /\ opened evs = match fault env KLogger n, fault env KLogger (n + 1),
                            fault env KCreate (n + 2) with
                      | None, None, None => [n + 2]
                      | _, _, _ => []
                      end)
  /\ (forall o : SendEmailOptions,
         let evs := events (sendEmail env o) n in
         closed evs = opened evs
         /\ length (opened evs) <= 1
         /\ closes_last evs = true
         /\ opened evs = match fault env KLogger n, fault env KCreate (n + 1) with
                         | None, None => [n + 1]
                         | _, _ => []
                         end).
Proof.
  split; intros o evs; subst evs; unfold_eff; rewrite <- ?pos2.
  - fault_cases; repeat split; auto using Nat.eqb_refl; congruence.
  - fault_cases; repeat split; auto using Nat.eqb_refl; congruence.
Qed.

(** The failure line lists the non-empty message, then [code=...] for a
    non-empty code, then [errno=...] for a present errno. *)
Lemma details_failure_parts (err : JsError) :
  details err = Js.join ", " (failure_parts err).
Proof.
  destruct err as [m c e s]. unfold details, failure_parts, detail_parts.
  destruct m as [|a m]; destruct c as [[|b c]|]; destruct e as [z|]; reflexivity.
Qed.

Lemma string_length_append (a b : string) :
  String.length (a ++ b) = String.length a + String.length b.
Proof. induction a as [|c a IH]; simpl; [reflexivity | now rewrite IH]. Qed.

Lemma append_assoc_string (a b c : string) : a ++ b ++ c = (a ++ b) ++ c.
Proof. induction a as [|x a IH]; simpl; [reflexivity | now rewrite IH]. Qed.

Lemma append_empty_r (a : string) : a ++ EmptyString = a.
Proof. induction a as [|x a IH]; simpl; [reflexivity | now rewrite IH]. Qed.

Lemma occurs_in_prefixed (x s before : string) :
  occurs_in x s -> occurs_in x (before ++ s).
Proof.
  intros (b & a & ->). exists (before ++ b), a.
  now rewrite !append_assoc_string.
Qed.

Lemma occurs_in_suffixed (x s after : string) :
  occurs_in x s -> occurs_in x (s ++ after).
Proof.
  intros (b & a & ->). exists b, (a ++ after).
  now rewrite !append_assoc_string.
Qed.

(** Every joined item occurs in the joined text. *)
Lemma join_occurs (sep x : string) (l : list string) :
  In x l -> occurs_in x (Js.join sep l).
Proof.
  induction l as [|y rest IH]; [contradiction | ].
  intros [-> | Hin].
  - destruct rest as [|z rest].
    + exists EmptyString, EmptyString. simpl. now rewrite append_empty_r.
    + exists EmptyString, (sep ++ Js.join sep (z :: rest)). reflexivity.
  - destruct rest as [|z rest]; [contradiction | ].
    change (Js.join sep (y :: z :: rest)) with (y ++ sep ++ Js.join sep (z :: rest)).
    apply occurs_in_prefixed, occurs_in_prefixed, IH, Hin.
Qed.





(** ** What the log lines of [verifySmtp] depend on *)

Section Redaction.

Variables (o : SmtpOptions) (p : option string).

Lemma msg_verifying_password :
  msg_verifying (with_password o p) = msg_verifying o.
Proof. reflexivity. Qed.

Lemma msg_successful_password :
  msg_successful (with_password o p) = msg_successful o.
Proof. reflexivity. Qed.

Lemma msg_failed_password (err : JsError) :
  msg_failed (with_password o p) err = msg_failed o err.
Proof. reflexivity. Qed.

(** The options line sees of the password only whether it is truthy. *)
Lemma msg_options_password (q : option string) :
  Js.truthy_str p = Js.truthy_str q ->
  msg_options (with_password o p) = msg_options (with_password o q).
Proof.
  intros H. unfold msg_options, safeOpts. simpl. rewrite H. reflexivity.
Qed.

End Redaction.

(** A property with a defined value appears in the JSON text under its key. *)
Lemma json_members_In (k : string) (v : Js.value) (txt : string)
      (props : list (string * Js.value)) :
  In (k, v) props ->
  Js.json_value v = Some txt ->
  In (Js.json_string k ++ ":" ++ txt) (Js.json_members props).
Proof.
  intros Hin Hv. induction props as [|[k' v'] rest IH]; [contradiction | ].
  simpl. destruct Hin as [[= -> ->] | Hin].
  - rewrite Hv. left. reflexivity.
  - destruct (Js.json_value v'); [right | ]; auto.
Qed.

Lemma truthy_of_non_empty (s : string) :
  s <> EmptyString -> Js.truthy_str (Some s) = true.
Proof. destruct s; [contradiction | reflexivity]. Qed.

(** A property of [safeOpts] with a defined value occurs, under its key, in
    the text of the options line. *)
Lemma msg_options_member (o : SmtpOptions) (k : string) (v : Js.value) (txt : string) :
  In (k, v) (safeOpts o) ->
  Js.json_value v = Some txt ->
  occurs_in (Js.json_string k ++ ":" ++ txt) (msg_options o).
Proof.
  intros Hin Hv. unfold msg_options, Js.JSON_stringify.
  apply occurs_in_prefixed, occurs_in_prefixed, occurs_in_suffixed, join_occurs.
  now apply json_members_In with (v := v).
Qed.

(** The debug calls of [verifySmtp] carry the options line, and there is one
    as soon as the first log call returns. *)
Lemma verifySmtp_debug_line (env : Env) (o : SmtpOptions) (n : nat) (line : string) :
  In (LoggerDebug line) (logged (events (verifySmtp env o) n)) ->
  line = msg_options o.
Proof.
  unfold_eff. fault_cases; intros H;
    repeat (destruct H as [H | H]; [try discriminate | ]);
    try contradiction; congruence.
Qed.

Lemma verifySmtp_debug_logged (env : Env) (o : SmtpOptions) (n : nat) :
  fault env KLogger n = None ->
  In (LoggerDebug (msg_options o)) (logged (events (verifySmtp env o) n)).
Proof.
  intros H. unfold_eff. cbn. rewrite H.
  fault_cases; right; left; reflexivity.
Qed.

(** C3.  Two runs of [verifySmtp] in the same environment on options that
    differ only in their non-empty password hand the logger the same calls,
    with the same texts (so the log of a run is the log of the run whose
    password is any other non-empty string).  The line handed to the logger
    at debug level shows a present password as eight stars, an absent
    password as [(none)] and an absent username as [(none)]; that line is
    logged as soon as the first log call returns. *)
Theorem C3_password_not_in_log (env : Env) (o : SmtpOptions) (n : nat)
  (p1 p2 : string) (H1 : p1 <> EmptyString) (H2 : p2 <> EmptyString) :
  logged (events (verifySmtp env (with_password o (Some p1))) n)
  = logged (events (verifySmtp env (with_password o (Some p2))) n)
  /\ (forall line,
         In (LoggerDebug line)
            (logged (events (verifySmtp env (with_password o (Some p1))) n)) ->
         occurs_in (Js.json_string "password" ++ ":" ++ Js.json_string "********") line)
  /\ (forall line,
         In (LoggerDebug line)
            (logged (events (verifySmtp env (with_password o None)) n)) ->
         occurs_in (Js.json_string "password" ++ ":" ++ Js.json_string "(none)") line)
  /\ (forall h pt s pw ic line,
         In (LoggerDebug line)
            (logged (events (verifySmtp env (mkSmtpOptions h pt s None pw ic)) n)) ->
         occurs_in (Js.json_string "username" ++ ":" ++ Js.json_string "(none)") line)
  /\ (fault env KLogger n = None ->
      forall o' : SmtpOptions,
        In (LoggerDebug (msg_options o')) (logged (events (verifySmtp env o') n))).
Proof.
  split; [ | split; [ | split; [ | split ] ] ].
  - assert (Ho : msg_options (with_password o (Some p1))
                 = msg_options (with_password o (Some p2))).
    { apply msg_options_password.
      now rewrite !truthy_of_non_empty. }
    unfold_eff. rewrite !msg_verifying_password, !msg_successful_password, Ho.
    fault_cases; rewrite ?msg_failed_password; try reflexivity; congruence.
  - intros line Hline. rewrite (verifySmtp_debug_line _ _ _ _ Hline).
    apply msg_options_member with (v := Js.VString "********"); [ | reflexivity].
    unfold safeOpts, with_password; cbn [smtp_password].
    rewrite (truthy_of_non_empty H1).
    do 4 right. left. reflexivity.
  - intros line Hline. rewrite (verifySmtp_debug_line _ _ _ _ Hline).
    apply msg_options_member with (v := Js.VString "(none)"); [ | reflexivity].
    do 4 right. left. reflexivity.
  - intros h pt s pw ic line Hline. rewrite (verifySmtp_debug_line _ _ _ _ Hline).
    apply msg_options_member with (v := Js.VString "(none)"); [ | reflexivity].
    do 3 right. left. reflexivity.
  - intros Hfirst o'. now apply verifySmtp_debug_logged.
Qed.

(** Two different passwords on [example_smtp], against a relay that refuses
    the connection: the same log. *)
Lemma C3_example_witness :
  logged (events (verifySmtp env_refused (with_password example_smtp (Some "hunter2"))) 0)
  = logged (events (verifySmtp env_refused
                               (with_password example_smtp (Some "correct horse"))) 0).
Proof.
  apply (proj1 (@C3_password_not_in_log env_refused example_smtp 0
                  "hunter2" "correct horse"
                  ltac:(discriminate) ltac:(discriminate))).
Defined.

(** ** [sendEmail] *)

(** C9.  The message given to [sendMail] carries, as attachments, the image
    attachments mapped one by one: same length, same order, and for each the
    same filename, the same path and the input's cid as content-id; two
    inputs give exactly two entries; without [imageAttachments] the message
    has no attachment list. *)
Theorem C9_attachments_mapped (env : Env) (o : SendEmailOptions) (n : nat) :
  map mail_attachments (sent (events (sendEmail env o) n))
  = match fault env KLogger n, fault env KCreate (n + 1) with
    | None, None => [attachments_of (se_imageAttachments o)]
    | _, _ => []
    end
  /\ attachments_of None = None
  /\ (forall l : list EmailImageAttachment,
         exists atts,
           attachments_of (Some l) = Some atts
           /\ length atts = length l
           /\ forall i, nth_error atts i = option_map toAttachment (nth_error l i))
  /\ (forall a : EmailImageAttachment,
         filename (toAttachment a) = img_filename a
         /\ path (toAttachment a) = img_path a
         /\ cid (toAttachment a) = img_cid a)
  /\ (forall a b : EmailImageAttachment,
         attachments_of (Some [a; b])
         = Some [ {| filename := img_filename a; path := img_path a; cid := img_cid a |};
                  {| filename := img_filename b; path := img_path b; cid := img_cid b |} ]).
Proof.
  split; [ | split; [ reflexivity | split; [ | split; [ | reflexivity ] ] ] ].
  - unfold_eff. fault_cases; reflexivity.
  - intros l. exists (map toAttachment l). split; [reflexivity | ].
    split; [apply length_map | ].
    intros i. apply nth_error_map.
  - intros a. repeat split.
Qed.

(** C10.  The message given to [sendMail] is made of [to], [from],
    [subject], [html], [text] of the input and the mapped attachments; it has
    no [replyTo]; and two calls that differ only in [replyTo] behave alike in
    every respect. *)
Theorem C10_replyTo_not_forwarded (env : Env) (o : SendEmailOptions) (n : nat)
  (r : option string) :
  sent (events (sendEmail env o) n)
  = match fault env KLogger n, fault env KCreate (n + 1) with
    | None, None =>
        [ {| mail_to := se_to o;
             mail_from := se_from o;
             mail_replyTo := None;
             mail_subject := se_subject o;
             mail_html := se_html o;
             mail_text := se_text o;
             mail_attachments := attachments_of (se_imageAttachments o) |} ]
    | _, _ => []
    end
  /\ sendEmail env (with_replyTo o r) n = sendEmail env o n.
Proof.
  split.
  - unfold_eff. fault_cases; reflexivity.
  - reflexivity.
Qed.

(** ** Further properties of the configurator *)

(** X1.  When no port is given the resolved configuration always protects
    the connection: the port is 465 with implicit TLS or 587 with required
    STARTTLS.  In general the configuration has neither protection exactly
    when a port other than 587 is given and [secure] is [false], or is unset
    with a port other than 465. *)
Theorem X1_plaintext_only_by_explicit_port :
  (forall h s u pw ic,
      let cfg := transportOptions (mkSmtpOptions h None s u pw ic) in
      secure cfg || requireTLS cfg = true
      /\ (secure cfg = true /\ port cfg = 465%Z
          \/ requireTLS cfg = true /\ port cfg = 587%Z))
  /\ (forall o : SmtpOptions,
         let cfg := transportOptions o in
         secure cfg || requireTLS cfg = false
         <-> exists p, smtp_port o = Some p /\ p <> 587%Z
                       /\ (smtp_secure o = Some false
                           \/ smtp_secure o = None /\ p <> 465%Z)).
Proof.
  split.
  - intros h [[|]|] u pw ic; cbv; auto.
  - intros [h [p|] [[|]|] u pw ic]; unfold transportOptions, resolve_secure, resolve_port;
      cbn [port secure requireTLS smtp_port smtp_secure Js.nullish Js.truthy_bool negb orb andb].
    + split; [discriminate | ]. intros (q & _ & _ & [H | [H _]]); discriminate.
    + split.
      * intros H. exists p. split; [reflexivity | ].
        destruct (Z.eqb_spec p 587); [discriminate | auto].
      * intros (q & [= <-] & Hq & _).
        destruct (Z.eqb_spec p 587); [contradiction | reflexivity].
    + split.
      * intros H. exists p. split; [reflexivity | ].
        destruct (Z.eqb_spec p 465) as [-> | H465]; [discriminate | ].
        cbn in H. destruct (Z.eqb_spec p 587); [discriminate | auto].
      * intros (q & [= <-] & Hq & [H | [_ H]]); [discriminate | ].
        destruct (Z.eqb_spec p 465); [contradiction | ].
        cbn. destruct (Z.eqb_spec p 587); [contradiction | reflexivity].
    + split; [discriminate | ]. intros (q & H & _); discriminate.
    + split; [cbv; discriminate | ]. intros (q & H & _); discriminate.
    + split; [cbv; discriminate | ]. intros (q & H & _); discriminate.
Qed.

(** X2.  Resolution is stable: writing the resolved port and the resolved
    [secure] back into the options gives the same configuration. *)
Theorem X2_resolution_stable (o : SmtpOptions) :
  transportOptions (with_resolved o) = transportOptions o.
Proof.
  reflexivity.
Qed.

(** X3.  Certificate checking is switched off exactly when [ignoreCert] is
    [true]; left out or [false], the server certificate is checked.  The host
    is handed on as given. *)
Theorem X3_certificate_checked_by_default (o : SmtpOptions) :
  (tls_rejectUnauthorized (transportOptions o) = false
   <-> smtp_ignoreCert o = Some true)
  /\ host (transportOptions o) = smtp_host o.
Proof.
  split; [ | reflexivity].
  destruct o as [h p s u pw [[|]|]]; cbv; split; congruence.
Qed.

(** ** Further properties of the runs *)

(** X4.  What is verified is what is used to send: [verifySmtp] on some
    options and [sendEmail] with these options as [smtp] hand nodemailer the
    same configuration, the resolved one, and each asks for at most one
    transport; none is asked for when a log call before it threw. *)
Theorem X4_same_configuration_verified_and_sent (env env' : Env) (n n' : nat)
  (o : SendEmailOptions) :
  created (events (verifySmtp env (se_smtp o)) n)
  = match fault env KLogger n, fault env KLogger (n + 1) with
    | None, None => [transportOptions (se_smtp o)]
    | _, _ => []
    end
  /\ created (events (sendEmail env' o) n')
     = match fault env' KLogger n' with
       | None => [transportOptions (se_smtp o)]
       | Some _ => []
       end.
Proof.
  split; unfold_eff; fault_cases_norm; reflexivity || congruence.
Qed.

(** X5.  In every run of [verifySmtp] and of [sendEmail], whatever throws,
    each call of [verify], [sendMail] or [close] is made on a session that
    [createTransport] returned earlier in the same run; when
    [createTransport] throws, no transport is touched. *)
Theorem X5_transport_used_only_after_creation (env : Env) (n : nat) :
  (forall o : SmtpOptions, well_scoped [] (events (verifySmtp env o) n) = true)
  /\ (forall o : SendEmailOptions, well_scoped [] (events (sendEmail env o) n) = true).
Proof.
  split; intros o; unfold_eff; fault_cases; rewrite ?Nat.eqb_refl; reflexivity.
Qed.

(** X6.  Verification sends no mail and sending verifies nothing; neither
    operation is tried a second time, whatever throws. *)
Theorem X6_no_retry_no_cross_use (env : Env) (n : nat) :
  (forall o : SmtpOptions,
      let evs := events (verifySmtp env o) n in
      sent evs = [] /\ length (verified evs) <= 1)
  /\ (forall o : SendEmailOptions,
         let evs := events (sendEmail env o) n in
         verified evs = [] /\ length (sent evs) <= 1).
Proof.
  split; intros o evs; subst evs; unfold_eff; fault_cases; split; auto.
Qed.

(** X7.  A throw of [close] replaces the completion of the method: when
    [close] throws, [verifySmtp] throws that value even after a successful
    verification, and [sendEmail] throws it instead of returning the promise
    or the error of [sendMail]. *)
Theorem X7_close_fault_replaces_outcome (env : Env) (n : nat) (e : Thrown) :
  (forall o : SmtpOptions,
      close_fault (events (verifySmtp env o) n) = Some e ->
      outcome (verifySmtp env o) n = Throw e)
  /\ (forall o : SendEmailOptions,
         close_fault (events (sendEmail env o) n) = Some e ->
         outcome (sendEmail env o) n = Throw e).
Proof.
  split; intros o; unfold_eff; fault_cases; intros [= <-] || discriminate; reflexivity.
Qed.

(** With only [close] failing, both methods throw what [close] threw. *)
Lemma X7_close_fails_witness :
  outcome (verifySmtp env_close_fails example_smtp) 0 = Throw example_disk_full
  /\ outcome (sendEmail env_close_fails example_mail) 0 = Throw example_disk_full.
Proof.
  split.
  - apply (proj1 (X7_close_fault_replaces_outcome env_close_fails 0 example_disk_full)).
    reflexivity.
  - apply (proj2 (X7_close_fault_replaces_outcome env_close_fails 0 example_disk_full)).
    reflexivity.
Defined.

(** X8.  The success line is logged inside the [try]: when [verify]
    succeeds but logging the success throws, the thrown value is handled as a
    verification failure - the failure line is logged for it - and
    [verifySmtp] does not return [true]; it throws that value when the error
    log and [close] return normally. *)
Theorem X8_success_log_fault_reported_as_failure (env : Env) (o : SmtpOptions)
  (n : nat) (e : Thrown)
  (Hlog : fault env KLogger n = None)
  (Hdebug : fault env KLogger (n + 1) = None)
  (Hcreate : fault env KCreate (n + 2) = None)
  (Hverify : fault env KVerify (n + 3) = None)
  (Hsuccess : fault env KLogger (n + 4) = Some e) :
  let evs := events (verifySmtp env o) n in
  let err := as_error env e in
  verified evs = [None]
  /\ logged evs = [LoggerLog (msg_verifying o); LoggerDebug (msg_options o);
                   LoggerLog (msg_successful o);
                   LoggerError (msg_failed o err) (stack err)]
  /\ closed evs = [n + 2]
  /\ outcome (verifySmtp env o) n <> Ret true
  /\ outcome (verifySmtp env o) n
     = match fault env KLogger (n + 5), fault env KClose (n + 6) with
       | _, Some e' => Throw e'
       | Some e', None => Throw e'
       | None, None => Throw e
       end.
Proof.
  intros evs err; subst evs err. unfold_eff.
  repeat (cbn; rewrite ?Nat.add_0_r, <- ?Nat.add_assoc; cbn [Nat.add];
          rewrite ?Hlog, ?Hdebug, ?Hcreate, ?Hverify, ?Hsuccess).
  fault_cases_norm; repeat split; reflexivity || discriminate.
Qed.

(** On [example_smtp], with the fifth call (the success line) failing. *)
Lemma X8_fifth_log_fails_witness :
  outcome (verifySmtp env_fifth_log_fails example_smtp) 0 = Throw example_disk_full.
Proof.
  apply (proj2 (proj2 (proj2 (proj2
           (@X8_success_log_fault_reported_as_failure env_fifth_log_fails example_smtp 0
              example_disk_full eq_refl eq_refl eq_refl eq_refl eq_refl))))).
Defined.

(** X9.  [verifySmtp] returns [true] exactly in the runs in which no
    collaborator call threw, and never returns [false]; [sendEmail] returns
    exactly in such runs, and what it returns is the promise that its call of
    [sendMail] returned. *)
Theorem X9_returns_iff_nothing_threw (env : Env) (n : nat) :
  (forall o : SmtpOptions,
      (outcome (verifySmtp env o) n = Ret true
       <-> no_fault (events (verifySmtp env o) n) = true)
      /\ outcome (verifySmtp env o) n <> Ret false)
  /\ (forall o : SendEmailOptions,
         (outcome (sendEmail env o) n = Ret (mkPromise (n + 2))
          <-> no_fault (events (sendEmail env o) n) = true)
         /\ forall p, outcome (sendEmail env o) n = Ret p -> p = mkPromise (n + 2)).
Proof.
  split; intros o; unfold_eff; fault_cases_norm;
    (split; [split | ]); try discriminate; try reflexivity;
    try (intros p [= <-]; reflexivity).
Qed.

(** X10.  [sendEmail] logs one debug line, before anything else, and nothing
    more - a failure of sending is not logged by it; the line is made of the
    recipient and the subject alone, so two calls with the same recipient and
    subject log the same, whatever the body, the sender, the attachments and
    the SMTP options with their password are. *)
Theorem X10_sendEmail_logs_recipient_and_subject_only (env : Env) (n : nat)
  (o o' : SendEmailOptions)
  (Hto : se_to o = se_to o') (Hsubject : se_subject o = se_subject o') :
  logged (events (sendEmail env o) n) = [LoggerDebug (msg_sending o)]
  /\ logged (events (sendEmail env o) n) = logged (events (sendEmail env o') n)
  /\ exists r rest, events (sendEmail env o) n = (LoggerDebug (msg_sending o), r) :: rest.
Proof.
  assert (Hmsg : msg_sending o = msg_sending o').
  { unfold msg_sending. now rewrite Hto, Hsubject. }
  split; [ | split].
  - unfold_eff. fault_cases; reflexivity.
  - unfold_eff. rewrite Hmsg. fault_cases; reflexivity || congruence.
  - unfold_eff. fault_cases; eexists; eexists; reflexivity.
Qed.

(** Two mails to the same recipient with the same subject, different bodies
    and SMTP passwords. *)
Lemma X10_same_log_witness :
  logged (events (sendEmail env_refused example_mail) 0)
  = logged (events (sendEmail env_refused
              {| se_from := "other@example.com";
                 se_to := "ann@example.com";
                 se_replyTo := Some "reply@example.com";
                 se_subject := "Welcome";
                 se_html := "<p>Another body</p>";
                 se_text := "Another body";
                 se_imageAttachments := Some [];
                 se_smtp := with_password example_smtp (Some "other secret") |}) 0).
Proof.
  apply (proj1 (proj2 (@X10_sendEmail_logs_recipient_and_subject_only
                         env_refused 0 example_mail _ eq_refl eq_refl))).
Defined.

(** ** Further properties of the log lines and of the renderer *)

(** X11.  The detail text of the failure line is empty exactly when the
    error has an empty message, no (or an empty) code and no errno; a present
    errno, zero included, always comes last as [errno=...], whereas an empty
    code is left out; and for a thrown value that is no [Error] the detail
    text is its string form. *)
Theorem X11_failure_details_edges :
  (forall err : JsError,
      details err = EmptyString
      <-> message err = EmptyString
          /\ Js.truthy_str (code err) = false
          /\ errno err = None)
  /\ (forall m c z s,
         exists before,
           details (mkJsError m c (Some z) s)
           = before ++ "errno=" ++ Js.num_to_string z)
  /\ (forall m z s,
         details (mkJsError m (Some EmptyString) z s) = details (mkJsError m None z s))
  /\ (forall env repr, details (as_error env (ThrownOther repr)) = repr).
Proof.
  split; [ | split; [ | split ] ].
  - intros [m c e s]. rewrite details_failure_parts. unfold failure_parts.
    cbn [message code errno].
    destruct m as [|a m]; destruct c as [[|b c]|]; destruct e as [z|];
      cbn; split; try discriminate; try (intros (H1 & H2 & H3); discriminate);
      auto.
  - intros m c z s. rewrite details_failure_parts. unfold failure_parts.
    cbn [message code errno].
    destruct m as [|a m]; destruct c as [[|b c]|].
    + exists EmptyString. reflexivity.
    + exists ("code=" ++ String b c ++ ", "). cbn [Js.join List.app].
      rewrite !append_assoc_string. reflexivity.
    + exists EmptyString. reflexivity.
    + exists (String a m ++ ", "). cbn [Js.join List.app].
      rewrite !append_assoc_string. reflexivity.
    + exists (String a m ++ ", " ++ "code=" ++ String b c ++ ", "). cbn [Js.join List.app].
      rewrite !append_assoc_string. reflexivity.
    + exists (String a m ++ ", "). cbn [Js.join List.app].
      rewrite !append_assoc_string. reflexivity.
  - intros m z s. rewrite !details_failure_parts. reflexivity.
  - intros env [|a repr]; reflexivity.
Qed.

(** X12.  The [customTemplate] of the request wins over the one inside
    [data]: requests that differ only in [data.customTemplate] render the
    same, for every template. *)
Theorem X12_data_customTemplate_overridden (T : Templates)
  (request : EmailRenderRequest) (c : option string) :
  renderEmail T (with_data_customTemplate request c) = renderEmail T request.
Proof.
  destruct request; reflexivity.
Qed.

(** X14.  The options line of [verifySmtp] tells whether a password is set
    and nothing else about it: for two passwords the lines are equal exactly
    when both passwords are non-empty or both are empty or absent. *)
Theorem X14_log_reveals_only_whether_password_set (o : SmtpOptions)
  (p q : option string) :
  msg_options (with_password o p) = msg_options (with_password o q)
  <-> Js.truthy_str p = Js.truthy_str q.
Proof.
  split; [ | apply msg_options_password].
  intros H. apply (f_equal String.length) in H.
  assert (Hstars : String.length (Js.json_string "********") = 10) by reflexivity.
  assert (Hnone : String.length (Js.json_string "(none)") = 8) by reflexivity.
  unfold msg_options, Js.JSON_stringify, safeOpts, with_password in H.
  cbn [smtp_host smtp_port smtp_secure smtp_username smtp_password smtp_ignoreCert] in H.
  destruct (Js.truthy_str p), (Js.truthy_str q); try reflexivity; exfalso;
    destruct (smtp_port o), (smtp_secure o), (smtp_ignoreCert o);
    cbn [Js.json_members Js.json_value Js.of_opt Js.join] in H;
    rewrite !string_length_append, Hstars, Hnone in H;
    lia.
Qed.

(** ** Where the password goes *)

Lemma drop_auth_password (o : SmtpOptions) (p q : option string) :
  drop_auth (transportOptions (with_password o p))
  = drop_auth (transportOptions (with_password o q)).
Proof. reflexivity. Qed.

(** X15.  The password reaches nothing but the [auth] record given to
    nodemailer: two runs of [verifySmtp] in the same environment whose
    passwords are both set, or both not, end alike and make the same calls
    with the same arguments, that record apart; two runs of [sendEmail] do so
    for any two passwords. *)
Theorem X15_password_reaches_only_auth (env : Env) (n : nat) (p q : option string) :
  (Js.truthy_str p = Js.truthy_str q ->
   forall o : SmtpOptions,
     map without_auth (events (verifySmtp env (with_password o p)) n)
     = map without_auth (events (verifySmtp env (with_password o q)) n)
     /\ outcome (verifySmtp env (with_password o p)) n
        = outcome (verifySmtp env (with_password o q)) n)
  /\ (forall o : SendEmailOptions,
         map without_auth
             (events (sendEmail env (with_smtp o (with_password (se_smtp o) p))) n)
         = map without_auth
               (events (sendEmail env (with_smtp o (with_password (se_smtp o) q))) n)
         /\ outcome (sendEmail env (with_smtp o (with_password (se_smtp o) p))) n
            = outcome (sendEmail env (with_smtp o (with_password (se_smtp o) q))) n).
Proof.
  split; [intros Hpq o | intros o].
  - pose proof (msg_options_password o p q Hpq) as Ho.
    split; unfold_eff;
      rewrite !msg_verifying_password, !msg_successful_password, Ho;
      fault_cases; rewrite ?msg_failed_password, ?(drop_auth_password o p q);
      reflexivity || congruence.
  - split; unfold_eff; unfold with_smtp; cbn [se_smtp];
      change (msg_sending (with_smtp o (with_password (se_smtp o) p)))
        with (msg_sending o) || idtac;
      fault_cases; rewrite ?(drop_auth_password (se_smtp o) p q);
      reflexivity || congruence.
Qed.

(** On [example_smtp], two different passwords against a relay that refuses
    the connection. *)
Lemma X15_two_passwords_witness :
  outcome (verifySmtp env_refused (with_password example_smtp (Some "hunter2"))) 0
  = outcome (verifySmtp env_refused (with_password example_smtp (Some "other secret"))) 0.
Proof.
  apply (proj1 (@X15_password_reaches_only_auth env_refused 0
                  (Some "hunter2") (Some "other secret")) eq_refl).
Defined.

(** X16.  How [sendEmail] ends: it throws what the debug log or
    [createTransport] threw; otherwise what [close] threw; otherwise what
    [sendMail] threw, unchanged; and otherwise it returns the promise of
    [sendMail]. *)
Theorem X16_sendEmail_outcome (env : Env) (o : SendEmailOptions) (n : nat) :
  outcome (sendEmail env o) n
  = match fault env KLogger n with
    | Some e => Throw e
    | None =>
        match fault env KCreate (n + 1) with
        | Some e => Throw e
        | None =>
            match fault env KClose (n + 3), fault env KSendMail (n + 2) with
            | Some e, _ => Throw e
            | None, Some e => Throw e
            | None, None => Ret (mkPromise (n + 2))
            end
        end
    end.
Proof.
  unfold_eff. fault_cases_norm; reflexivity || congruence.
Qed.

(** X17.  The user name is logged as it is: in the line that [verifySmtp]
    hands to the logger at debug level, a given user name, the empty one
    included, appears under [username] in its JSON form - only an absent one
    is shown as [(none)] - while an empty password is shown as [(none)] like
    an absent one; and that line is logged as soon as the first log call
    returns. *)
Theorem X17_username_logged_in_clear (env : Env) (n : nat) :
  (forall h pt s u pw ic line,
      In (LoggerDebug line)
         (logged (events (verifySmtp env (mkSmtpOptions h pt s (Some u) pw ic)) n)) ->
      occurs_in (Js.json_string "username" ++ ":" ++ Js.json_string u) line)
  /\ (forall h pt s u ic line,
         In (LoggerDebug line)
            (logged (events (verifySmtp env
                               (mkSmtpOptions h pt s u (Some EmptyString) ic)) n)) ->
         occurs_in (Js.json_string "password" ++ ":" ++ Js.json_string "(none)") line)
  /\ (forall o : SmtpOptions,
         fault env KLogger n = None ->
         In (LoggerDebug (msg_options o)) (logged (events (verifySmtp env o) n))).
Proof.
  split; [ | split].
  - intros h pt s u pw ic line Hline. rewrite (verifySmtp_debug_line _ _ _ _ Hline).
    apply msg_options_member with (v := Js.VString u); [ | reflexivity].
    do 3 right. left. reflexivity.
  - intros h pt s u ic line Hline. rewrite (verifySmtp_debug_line _ _ _ _ Hline).
    apply msg_options_member with (v := Js.VString "(none)"); [ | reflexivity].
    do 4 right. left. reflexivity.
  - intros o Hfirst. now apply verifySmtp_debug_logged.
Qed.
